(** * DAQ_Move_ChopperSR542: the SR542 chopper actuator plugin

    A shallow embedding of
    [daq_move_plugins/daq_move_ChopperSR542.py].  The plugin is glue between
    two collaborators that are not part of the repository:

    - the vendor driver ([srsinst.sr542.SR542]), modelled by the interface
      [Driver]: a constructor, a connectivity check, the configuration
      writes, the phase read and the operate commands, each of which may
      raise;
    - the host framework ([DAQ_Move_base]), modelled by the interface
      [Host]: bounds clamping, the scaling transforms, the master/slave
      controller choice and the common parameters.

    The plugin's methods are written in a state-and-exception monad over the
    instance attributes they touch.  Every outbound call is also appended to
    a call log, so that "which driver calls were issued, in which order" can
    be stated.  Python floats are IEEE binary64, as are Rocq's primitive
    floats. *)

From Stdlib Require Import String List Bool ZArith PrimFloat Lia.
From Stdlib Require Import SpecFloat FloatOps FloatAxioms.
Import ListNotations.
Local Open Scope string_scope.

(** ** Python values held by parameters *)

Inductive Value : Type :=
  | VStr (s : string)
  | VFloat (x : float)
  | VInt (z : Z)
  | VBool (b : bool)
  | VNone.

(** [v == 'literal'] for a string literal on the right. *)
Definition value_eq_str (v : Value) (lit : string) : bool :=
  match v with
  | VStr s => String.eqb s lit
  | _ => false
  end.

(** Python truthiness, as used by [if param.value():]. *)
Definition truthy (v : Value) : bool :=
  match v with
  | VStr s => negb (String.eqb s EmptyString)
  | VFloat x => negb (PrimFloat.eqb x 0%float)
  | VInt z => negb (Z.eqb z 0)
  | VBool b => b
  | VNone => false
  end.

(** ** Exceptions and outcomes *)

Inductive exn : Type :=
  | AttributeError (attr : string)   (* 'NoneType' object has no attribute attr *)
  | IndexError                       (* list index out of range *)
  | KeyError (key : string)          (* no child of that name *)
  | External (msg : string).         (* raised by the driver or by the host *)

Inductive outcome (A : Type) : Type :=
  | Ok (a : A)
  | Raise (e : exn).
Arguments Ok {A} a.
Arguments Raise {A} e.

(** ** Parameters and the settings tree *)

Record Param : Type := mkParam {
  p_title : string;
  p_name : string;
  p_type : string;
  p_limits : list Value;
  p_min : option Z;
  p_value : Value;
  p_visible : bool
}.

Definition set_visible (b : bool) (p : Param) : Param :=
  mkParam (p_title p) (p_name p) (p_type p) (p_limits p) (p_min p) (p_value p) b.

Definition set_value (v : Value) (p : Param) : Param :=
  mkParam (p_title p) (p_name p) (p_type p) (p_limits p) (p_min p) v (p_visible p).

(** [settings.child(n)]: the first child named [n]. *)
Fixpoint child (n : string) (ps : list Param) : option Param :=
  match ps with
  | [] => None
  | p :: ps' => if String.eqb (p_name p) n then Some p else child n ps'
  end.

(** In-place update of the child named [n]; the tree is unchanged when there
    is none (the callers raise [KeyError] before they get here). *)
Fixpoint update_child (n : string) (f : Param -> Param) (ps : list Param)
  : list Param :=
  match ps with
  | [] => []
  | p :: ps' =>
      if String.eqb (p_name p) n then f p :: ps'
      else p :: update_child n f ps'
  end.

(** [l[i]] on a Python list. *)
Definition getitem {A : Type} (l : list A) (i : nat) : outcome A :=
  match nth_error l i with
  | Some x => Ok x
  | None => Raise IndexError
  end.

(** ** The two collaborators *)

(** Calls on the driver object that change the device. *)
Inductive DriverCall : Type :=
  | SetSource (v : Value)          (* controller.config.source = v *)
  | SetSyncEdge (v : Value)        (* controller.config.sync_edge = v *)
  | SetInternalFreq (v : Value)    (* controller.config.internal_freq = v *)
  | SetControlTarget (v : Value)   (* controller.config.control_target = v *)
  | SetPhase (x : float)           (* controller.config.phase = x *)
  | OperateRun                     (* controller.operate.run() *)
  | OperateStop                    (* controller.operate.stop() *)
  | Disconnect.                    (* controller.disconnect() *)

(** The attribute of [self.controller] a call goes through. *)
Definition attr_of (c : DriverCall) : string :=
  match c with
  | SetSource _ | SetSyncEdge _ | SetInternalFreq _ | SetControlTarget _
  | SetPhase _ => "config"
  | OperateRun | OperateStop => "operate"
  | Disconnect => "disconnect"
  end.

Class Driver (Dev : Type) : Type := {
  (* SR542(interface, port, baud) *)
  SR542 : string -> Value -> string -> outcome Dev;
  is_connected : Dev -> bool;
  drv_call : DriverCall -> Dev -> outcome Dev;
  (* controller.config.phase, read *)
  config_phase : Dev -> outcome float
}.

Class Host : Type := {
  comon_parameters_fun : bool -> list string -> float -> list Param;
  ini_stage_init :
    forall {C : Type}, list Param -> option C -> option C -> outcome (option C);
  check_bound : list Param -> float -> float;
  get_position_with_scaling : list Param -> float -> float;
  set_position_with_scaling : list Param -> float -> float;
  set_position_relative_with_scaling : list Param -> float -> float
}.

(** Everything the plugin does that is observable from outside. *)
Inductive Event : Type :=
  | EvConnect (interface : string) (port : Value) (baud : string)
  | EvIsConnected
  | EvReadPhase
  | EvCall (c : DriverCall)
  | EvShow (n : string)
  | EvHide (n : string).

(** ** Class attributes *)

Definition _controller_units : string := "deg".
Definition is_multiaxes : bool := false.
Definition _axis_names : list string := ["Phase"].
(* 0.1, as binary64 *)
Definition _epsilon : float := 0x1.999999999999ap-4%float.

(** [comports]: the device names of the sorted port list. *)
Definition comports (sorted_ports : list (string * string * string))
  : list string :=
  map (fun '(port, _, _) => port) sorted_ports.

(** The [params] table; [comports[0]] is evaluated while the first entry is
    built. *)
Definition params `{Host} (comports : list string) : outcome (list Param) :=
  match getitem comports 0 with
  | Raise e => Raise e
  | Ok first =>
      Ok (([ mkParam "COM port:" "com_port" "list" (map VStr comports) None
              (VStr first) true;
            mkParam "Source:" "source" "list"
              [VStr "internal"; VStr "vco"; VStr "line"; VStr "external"] None
              (VStr "internal") true;
            mkParam "Edge:" "edge" "list"
              [VStr "rise"; VStr "fall"; VStr "sine"] None (VStr "rise") true;
            mkParam "Internal Frequency:" "internal_freq" "float" [] None
              (VFloat 100%float) true;
            mkParam "Multiplier n:" "n" "int" [] (Some 1%Z) (VInt 1) true;
            mkParam "Multiplier m:" "m" "int" [] (Some 1%Z) (VInt 1) true;
            mkParam "Control:" "control" "list"
              [VStr "shaft"; VStr "inner"; VStr "outer"] None (VStr "outer")
              true;
            mkParam "Run/Stop" "run" "bool_push" [] None (VBool false) true ]
          ++ comon_parameters_fun is_multiaxes _axis_names _epsilon)%list)
  end.

(** The eight names the plugin declares. *)
Definition plugin_names : list string :=
  ["com_port"; "source"; "edge"; "internal_freq"; "n"; "m"; "control"; "run"].

(** ** Instance state and the plugin monad *)

Section Plugin.

Context {Dev : Type} `{Driver Dev} `{Host}.

Record State : Type := mkState {
  controller : option Dev;
  settings : list Param;
  current_position : float;
  target_value : float;
  trace : list Event
}.

Definition M (A : Type) : Type := State -> outcome A * State.

Definition ret {A : Type} (a : A) : M A := fun st => (Ok a, st).

Definition raise {A : Type} (e : exn) : M A := fun st => (Raise e, st).

Definition bind {A B : Type} (m : M A) (k : A -> M B) : M B :=
  fun st =>
    match m st with
    | (Ok a, st') => k a st'
    | (Raise e, st') => (Raise e, st')
    end.

Notation "x <- m ;; k" := (bind m (fun x => k))
  (at level 61, m at next level, right associativity).
Notation "m ;; k" := (bind m (fun _ => k))
  (at level 61, right associativity).

Definition log (ev : Event) (st : State) : State :=
  mkState (controller st) (settings st) (current_position st)
          (target_value st) (trace st ++ [ev]).

Definition with_controller (c : option Dev) (st : State) : State :=
  mkState c (settings st) (current_position st) (target_value st) (trace st).

Definition with_settings (ps : list Param) (st : State) : State :=
  mkState (controller st) ps (current_position st) (target_value st)
          (trace st).

Definition with_current_position (x : float) (st : State) : State :=
  mkState (controller st) (settings st) x (target_value st) (trace st).

Definition with_target_value (x : float) (st : State) : State :=
  mkState (controller st) (settings st) (current_position st) x (trace st).

(** A call on [self.controller]: [AttributeError] on [None]; otherwise the
    call is issued (and logged) and the driver's exception, if any,
    propagates. *)
Definition device_call (c : DriverCall) : M unit :=
  fun st =>
    match controller st with
    | None => (Raise (AttributeError (attr_of c)), st)
    | Some d =>
        match drv_call c d with
        | Ok d' => (Ok tt, with_controller (Some d') (log (EvCall c) st))
        | Raise e => (Raise e, log (EvCall c) st)
        end
    end.

(** [self.settings.child(n).show()] / [.hide()]. *)
Definition show_child (n : string) (b : bool) : M unit :=
  fun st =>
    match child n (settings st) with
    | None => (Raise (KeyError n), st)
    | Some _ =>
        (Ok tt,
         with_settings (update_child n (set_visible b) (settings st))
           (log (if b then EvShow n else EvHide n) st))
    end.

(** [self.settings[n]], read. *)
Definition setting (n : string) : M Value :=
  fun st =>
    match child n (settings st) with
    | None => (Raise (KeyError n), st)
    | Some p => (Ok (p_value p), st)
    end.

(** [self.settings[n] = v]. *)
Definition set_setting (n : string) (v : Value) : M unit :=
  fun st =>
    match child n (settings st) with
    | None => (Raise (KeyError n), st)
    | Some _ =>
        (Ok tt, with_settings (update_child n (set_value v) (settings st)) st)
    end.

(** ** The plugin's methods *)

Definition ini_attributes (st : State) : State := with_controller None st.

Definition get_actuator_value : M float :=
  fun st =>
    match controller st with
    | None => (Raise (AttributeError "config"), st)
    | Some d =>
        match config_phase d with
        | Raise e => (Raise e, log EvReadPhase st)
        | Ok pos =>
            (Ok (get_position_with_scaling (settings st) pos),
             log EvReadPhase st)
        end
    end.

Definition close : M unit := device_call Disconnect.

Definition commit_settings (param : Param) : M unit :=
  if String.eqb (p_name param) "source" then
    device_call (SetSource (p_value param)) ;;
    (if value_eq_str (p_value param) "external"
     then show_child "edge" true else show_child "edge" false) ;;
    (if value_eq_str (p_value param) "internal"
     then show_child "internal_freq" true
     else show_child "internal_freq" false)
  else if String.eqb (p_name param) "edge" then
    device_call (SetSyncEdge (p_value param))
  else if String.eqb (p_name param) "internal_freq" then
    device_call (SetInternalFreq (p_value param))
  else if String.eqb (p_name param) "control" then
    device_call (SetControlTarget (p_value param))
  else if String.eqb (p_name param) "run" then
    (if truthy (p_value param)
     then device_call OperateRun else device_call OperateStop)
  else ret tt.

(** [for param in children: self.commit_settings(param)]. *)
Fixpoint commit_all (children : list Param) : M unit :=
  match children with
  | [] => ret tt
  | param :: rest => commit_settings param ;; commit_all rest
  end.

(** The new driver object is built while the arguments of [ini_stage_init]
    are evaluated, so the connection is attempted first.  The loop runs over
    [settings.children()], a copy of the child list taken when the loop
    starts; [commit_settings] reads only the name and the value of a child,
    which the loop never changes. *)
Definition ini_stage (old_controller : option Dev)
  : M (string * bool) :=
  port <- setting "com_port" ;;
  new_controller <-
    (fun st =>
       match SR542 "serial" port "115200" with
       | Ok d => (Ok d, log (EvConnect "serial" port "115200") st)
       | Raise e => (Raise e, log (EvConnect "serial" port "115200") st)
       end) ;;
  c <- (fun st =>
          match ini_stage_init (settings st) old_controller
                  (Some new_controller) with
          | Ok c => (Ok c, with_controller c st)
          | Raise e => (Raise e, st)
          end) ;;
  let info := "Chopper initialized" in
  initialized <-
    (fun st =>
       match controller st with
       | None => (Raise (AttributeError "is_connected"), st)
       | Some d => (Ok (is_connected d), log EvIsConnected st)
       end) ;;
  children <- (fun st => (Ok (settings st), st)) ;;
  commit_all children ;;
  ret (info, initialized).

Definition move_abs (value : float) : M unit :=
  value1 <- (fun st => (Ok (check_bound (settings st) value), st)) ;;
  (fun st => (Ok tt, with_target_value value1 st)) ;;
  value2 <- (fun st => (Ok (set_position_with_scaling (settings st) value1), st)) ;;
  device_call (SetPhase value2).

Definition move_rel (value : float) : M unit :=
  value1 <-
    (fun st =>
       (Ok (check_bound (settings st) (current_position st + value)
            - current_position st)%float, st)) ;;
  (fun st => (Ok tt, with_target_value (value1 + current_position st)%float st)) ;;
  _value2 <-
    (fun st =>
       (Ok (set_position_relative_with_scaling (settings st) value1), st)) ;;
  t <- (fun st => (Ok (target_value st), st)) ;;
  device_call (SetPhase t).

Definition move_home : M unit := ret tt.

Definition stop_motion : M unit :=
  device_call OperateStop ;;
  set_setting "run" (VBool false).

End Plugin.

Arguments State : clear implicits.
Arguments M : clear implicits.

(** ** Reachable instance states *)

Section Reachability.

Context {Dev : Type} `{Driver Dev} `{Host}.

(** The instance as [DAQ_Move_base.__init__] leaves it: the settings tree is
    built from the [params] table, position and target are zero, and
    [ini_attributes] has run. *)
Definition init_state (table : list Param) : State Dev :=
  ini_attributes (mkState None table 0%float 0%float []).

(** What can happen to an instance: the host calls one of the plugin's
    methods (whatever its outcome, the attributes it has written stay
    written), the user edits the value of a setting, or the host refreshes
    the cached position. *)
Inductive step : State Dev -> State Dev -> Prop :=
  | step_ini_stage old st : step st (snd (ini_stage old st))
  | step_commit_settings p st : step st (snd (commit_settings p st))
  | step_get_actuator_value st : step st (snd (get_actuator_value st))
  | step_move_abs x st : step st (snd (move_abs x st))
  | step_move_rel x st : step st (snd (move_rel x st))
  | step_move_home st : step st (snd (move_home st))
  | step_stop_motion st : step st (snd (stop_motion st))
  | step_close st : step st (snd (close st))
  | step_edit n v st :
      step st (with_settings (update_child n (set_value v) (settings st)) st)
  | step_refresh x st : step st (with_current_position x st).

Inductive reachable (table : list Param) : State Dev -> Prop :=
  | reach_init : reachable table (init_state table)
  | reach_step st st' :
      reachable table st -> step st st' -> reachable table st'.

(** The names of the children, in tree order. *)
Definition names (ps : list Param) : list string := map p_name ps.

(** A computation that never adds, removes or renames a child. *)
Definition keeps_names {A : Type} (m : M Dev A) : Prop :=
  forall st, names (settings (snd (m st))) = names (settings st).

(** The events [commit_settings] logs for a parameter when nothing raises. *)
Definition commit_events (param : Param) : list Event :=
  if String.eqb (p_name param) "source" then
    [ EvCall (SetSource (p_value param));
      (if value_eq_str (p_value param) "external"
       then EvShow "edge" else EvHide "edge");
      (if value_eq_str (p_value param) "internal"
       then EvShow "internal_freq" else EvHide "internal_freq") ]
  else if String.eqb (p_name param) "edge" then
    [ EvCall (SetSyncEdge (p_value param)) ]
  else if String.eqb (p_name param) "internal_freq" then
    [ EvCall (SetInternalFreq (p_value param)) ]
  else if String.eqb (p_name param) "control" then
    [ EvCall (SetControlTarget (p_value param)) ]
  else if String.eqb (p_name param) "run" then
    [ EvCall (if truthy (p_value param) then OperateRun else OperateStop) ]
  else [].

(** Whether the child named [n] is shown. *)
Definition visible (n : string) (st : State Dev) : bool :=
  match child n (settings st) with
  | Some p => p_visible p
  | None => false
  end.

(** The value of the child named [n]. *)
Definition value_of (n : string) (st : State Dev) : option Value :=
  option_map p_value (child n (settings st)).

(** A driver none of whose calls raises. *)
Definition calls_return : Prop :=
  forall (c : DriverCall) (d : Dev), exists d', drv_call c d = Ok d'.

(** The connection to [port] cannot be established: the constructor raises,
    or the object it returns reports that it is not connected. *)
Definition unreachable_port (port : Value) : Prop :=
  match SR542 "serial" port "115200" with
  | Ok d => is_connected d = false
  | Raise _ => True
  end.

(** The state a successful [commit_settings] on [source] ends in. *)
Definition after_source (v : Value) (d' : Dev) (st : State Dev) : State Dev :=
  let b1 := value_eq_str v "external" in
  let b2 := value_eq_str v "internal" in
  mkState (Some d')
    (update_child "internal_freq" (set_visible b2)
       (update_child "edge" (set_visible b1) (settings st)))
    (current_position st) (target_value st)
    (trace st ++ [EvCall (SetSource v)]
       ++ [if b1 then EvShow "edge" else EvHide "edge"]
       ++ [if b2 then EvShow "internal_freq" else EvHide "internal_freq"]).

(** An instance on which [commit_settings] cannot fail for want of a
    controller or of a child to show or hide. *)
Definition ready (st : State Dev) : Prop :=
  (exists d, controller st = Some d) /\
  In "edge" (names (settings st)) /\
  In "internal_freq" (names (settings st)).

(** The target [move_rel] computes from the cached position. *)
Definition rel_target (st : State Dev) (delta : float) : float :=
  (check_bound (settings st) (current_position st + delta)
   - current_position st + current_position st)%float.

End Reachability.

(** ** Test doubles for the two collaborators

    The theorems below hold for every driver and every host.  To run the
    plugin on concrete inputs we use a register-file device and a host with
    the clamping and the affine scaling of [DAQ_Move_base]. *)

Record SimDev : Type := mkSimDev {
  sim_port : Value;
  sim_connected : bool;
  sim_source : Value;
  sim_sync_edge : Value;
  sim_internal_freq : Value;
  sim_control_target : Value;
  sim_phase : float;
  sim_running : bool
}.

Definition sim_fresh (port : Value) (connected : bool) : SimDev :=
  mkSimDev port connected VNone VNone VNone VNone 0%float false.

(** A call on a connected device writes the register; on a device that is
    not connected it is dropped. *)
Definition sim_apply (c : DriverCall) (d : SimDev) : SimDev :=
  if sim_connected d then
    match c with
    | SetSource v =>
        mkSimDev (sim_port d) true v (sim_sync_edge d) (sim_internal_freq d)
          (sim_control_target d) (sim_phase d) (sim_running d)
    | SetSyncEdge v =>
        mkSimDev (sim_port d) true (sim_source d) v (sim_internal_freq d)
          (sim_control_target d) (sim_phase d) (sim_running d)
    | SetInternalFreq v =>
        mkSimDev (sim_port d) true (sim_source d) (sim_sync_edge d) v
          (sim_control_target d) (sim_phase d) (sim_running d)
    | SetControlTarget v =>
        mkSimDev (sim_port d) true (sim_source d) (sim_sync_edge d)
          (sim_internal_freq d) v (sim_phase d) (sim_running d)
    | SetPhase x =>
        mkSimDev (sim_port d) true (sim_source d) (sim_sync_edge d)
          (sim_internal_freq d) (sim_control_target d) x (sim_running d)
    | OperateRun =>
        mkSimDev (sim_port d) true (sim_source d) (sim_sync_edge d)
          (sim_internal_freq d) (sim_control_target d) (sim_phase d) true
    | OperateStop =>
        mkSimDev (sim_port d) true (sim_source d) (sim_sync_edge d)
          (sim_internal_freq d) (sim_control_target d) (sim_phase d) false
    | Disconnect =>
        mkSimDev (sim_port d) false (sim_source d) (sim_sync_edge d)
          (sim_internal_freq d) (sim_control_target d) (sim_phase d)
          (sim_running d)
    end
  else d.

(** What the constructor does with a port it cannot open. *)
Inductive OpenFailure : Type :=
  | OpenRaises      (* the constructor raises, as opening a serial port does *)
  | OpenSilent.     (* the constructor returns an object that is not connected *)

Definition sim_driver (openable : Value -> bool) (mode : OpenFailure)
  : Driver SimDev :=
  {| SR542 := fun _ port _ =>
       if openable port then Ok (sim_fresh port true)
       else match mode with
            | OpenRaises => Raise (External "could not open port")
            | OpenSilent => Ok (sim_fresh port false)
            end;
     is_connected := sim_connected;
     drv_call := fun c d => Ok (sim_apply c d);
     config_phase := fun d => Ok (sim_phase d) |}.

Definition group (title name : string) : Param :=
  mkParam title name "group" [] None VNone true.

(** Bounds and scaling constants are configured outside the plugin. *)
Definition affine_host (is_bounds : bool) (min_bound max_bound : float)
    (use_scaling : bool) (scaling offset : float) : Host :=
  {| comon_parameters_fun := fun multiaxes _ epsilon =>
       [ mkParam "Units:" "units" "str" [] None (VStr EmptyString) true;
         mkParam "Epsilon:" "epsilon" "float" [] None (VFloat epsilon) true;
         mkParam "Timeout (s):" "timeout" "int" [] None (VInt 20) true;
         set_visible multiaxes (group "MultiAxes:" "multiaxes");
         group "Bounds:" "bounds";
         group "Scaling:" "scaling" ];
     ini_stage_init := fun _ _ _ new_controller => Ok new_controller;
     check_bound := fun _ position =>
       if is_bounds then
         if (max_bound <? position)%float then max_bound
         else if (position <? min_bound)%float then min_bound
         else position
       else position;
     get_position_with_scaling := fun _ pos =>
       if use_scaling then ((pos - offset) * scaling)%float else pos;
     set_position_with_scaling := fun _ pos =>
       if use_scaling then (pos / scaling + offset)%float else pos;
     set_position_relative_with_scaling := fun _ pos =>
       if use_scaling then (pos / scaling)%float else pos |}.

(** No bounds, no scaling. *)
Definition plain_host : Host :=
  affine_host false 0%float 0%float false 1%float 0%float.

(** The parameter table on a machine with the two ports COM3 and COM9. *)
Definition sample_table `{Host} : list Param :=
  match params (comports [("COM3", "USB Serial Port", "FTDI");
                          ("COM9", "n/a", "n/a")]) with
  | Ok table => table
  | Raise _ => []
  end.

(** ** Concrete instances *)

(** Every port opens. *)
Definition open_driver : Driver SimDev := sim_driver (fun _ => true) OpenRaises.

(** No port opens, and the constructor says so by raising. *)
Definition raising_driver : Driver SimDev :=
  sim_driver (fun _ => false) OpenRaises.

(** No port opens, and the constructor returns an unconnected object. *)
Definition silent_driver : Driver SimDev :=
  sim_driver (fun _ => false) OpenSilent.

(** A freshly constructed plugin instance. *)
Definition fresh_instance (h : Host) : State SimDev :=
  init_state (sample_table (H := h)).

(** The same instance after a successful [ini_stage]. *)
Definition connected_instance (h : Host) : State SimDev :=
  snd (ini_stage (H := open_driver) (H0 := h) None (fresh_instance h)).

(** Scaling switched on: scale 2, offset 10; no bounds. *)
Definition scaled_host : Host :=
  affine_host false 0%float 0%float true 2%float 10%float.

(** The device that instance holds. *)
Definition connected_device (h : Host) : SimDev :=
  match controller (connected_instance h) with
  | Some d => d
  | None => sim_fresh VNone false
  end.

(** The phase register of the connected device, if any. *)
Definition phase_register (st : State SimDev) : option float :=
  option_map sim_phase (controller st).

(** The [source] child holding [v]. *)
Definition source_param (v : Value) : Param :=
  mkParam "Source:" "source" "list"
    [VStr "internal"; VStr "vco"; VStr "line"; VStr "external"] None v true.

(** The [com_port] child of the sample table. *)
Definition com_port_param : Param :=
  mkParam "COM port:" "com_port" "list" [VStr "COM3"; VStr "COM9"] None
    (VStr "COM3") true.

(** The connected instance after the user has pushed Run. *)
Definition run_pushed_instance (h : Host) : State SimDev :=
  let st := connected_instance h in
  with_settings (update_child "run" (set_value (VBool true)) (settings st)) st.


(** ** Moves as the host runs them *)

Section HostMoves.

Context {Dev : Type} `{Driver Dev} `{Host}.





End HostMoves.





(** ** Frames *)

(** The values and the visibility flags of the children, in tree order. *)
Definition values (ps : list Param) : list Value := map p_value ps.

Definition visibilities (ps : list Param) : list bool := map p_visible ps.

(** A computation that leaves the observation [f] of the instance as it
    was, whatever its outcome. *)
Definition preserves {Dev A B : Type} (f : State Dev -> B) (m : M Dev A)
  : Prop :=
  forall st, f (snd (m st)) = f st.

(** The five names [commit_settings] has a branch for. *)
Definition dispatched_names : list string :=
  ["source"; "edge"; "internal_freq"; "control"; "run"].

(** No port opens: the constructor returns an unconnected object, and every
    call on an unconnected object raises. *)
Definition strict_driver : Driver SimDev :=
  {| SR542 := fun _ port _ => Ok (sim_fresh port false);
     is_connected := sim_connected;
     drv_call := fun c d =>
       if sim_connected d then Ok (sim_apply c d)
       else Raise (External "not connected");
     config_phase := fun d =>
       if sim_connected d then Ok (sim_phase d)
       else Raise (External "not connected") |}.

(** An instance that holds an unconnected object of [strict_driver]. *)
Definition unconnected_instance (h : Host) : State SimDev :=
  with_controller (Some (sim_fresh (VStr "COM3") false)) (fresh_instance h).

(** The [n] child of the table. *)
Definition n_param : Param :=
  mkParam "Multiplier n:" "n" "int" [] (Some 1%Z) (VInt 1) true.

(** * Properties *)

(** ** The settings tree *)

Lemma set_visible_name b p : p_name (set_visible b p) = p_name p.
Proof. reflexivity. Qed.

Lemma set_value_name v p : p_name (set_value v p) = p_name p.
Proof. reflexivity. Qed.

Lemma names_update_child n f ps :
  (forall p, p_name (f p) = p_name p) ->
  map p_name (update_child n f ps) = map p_name ps.
Proof.
  intros Hf. induction ps as [|p ps IH]; simpl; [reflexivity|].
  destruct (String.eqb (p_name p) n); simpl.
  - now rewrite Hf.
  - now rewrite IH.
Qed.

Lemma child_update_same n f ps p :
  (forall p, p_name (f p) = p_name p) ->
  child n ps = Some p ->
  child n (update_child n f ps) = Some (f p).
Proof.
  intros Hf. induction ps as [|q ps IH]; simpl; [discriminate|].
  destruct (String.eqb (p_name q) n) eqn:E; simpl.
  - intros [= ->]. now rewrite Hf, E.
  - rewrite E. exact IH.
Qed.

Lemma child_update_other n m f ps :
  (forall p, p_name (f p) = p_name p) ->
  n <> m ->
  child n (update_child m f ps) = child n ps.
Proof.
  intros Hf Hnm. induction ps as [|q ps IH]; simpl; [reflexivity|].
  destruct (String.eqb (p_name q) m) eqn:E; simpl.
  - rewrite Hf. apply String.eqb_eq in E.
    destruct (String.eqb (p_name q) n) eqn:E'; [|reflexivity].
    apply String.eqb_eq in E'. congruence.
  - now rewrite IH.
Qed.

Lemma child_of_name n ps :
  In n (map p_name ps) -> exists p, child n ps = Some p.
Proof.
  induction ps as [|q ps IH]; simpl; [contradiction|].
  destruct (String.eqb (p_name q) n) eqn:E.
  - intros _. now exists q.
  - intros [Hq|Hin]; [|now apply IH].
    apply String.eqb_neq in E. contradiction.
Qed.

Lemma value_eq_str_spec v lit : value_eq_str v lit = true <-> v = VStr lit.
Proof.
  destruct v; simpl; try (split; [discriminate|intros [=]]).
  rewrite String.eqb_eq. split; [now intros ->|now intros [= ->]].
Qed.

Lemma params_names `{Host} cp table :
  params cp = Ok table ->
  map p_name table =
  (plugin_names
     ++ map p_name (comon_parameters_fun is_multiaxes _axis_names _epsilon))%list.
Proof.
  unfold params. destruct (getitem cp 0); [|discriminate].
  intros [= <-]. reflexivity.
Qed.

Section Invariant.

Context {Dev : Type} `{Driver Dev} `{Host}.

Lemma keeps_ret {A} (a : A) : keeps_names (Dev := Dev) (ret a).
Proof. intros st. reflexivity. Qed.

Lemma keeps_bind {A B} (m : M Dev A) (k : A -> M Dev B) :
  keeps_names m -> (forall a, keeps_names (k a)) -> keeps_names (bind m k).
Proof.
  intros Hm Hk st. unfold bind. specialize (Hm st).
  destruct (m st) as [[a|e] st']; simpl in *.
  - now rewrite Hk.
  - exact Hm.
Qed.

Lemma keeps_device_call c : keeps_names (Dev := Dev) (device_call c).
Proof.
  intros st. unfold device_call.
  destruct (controller st) as [d|]; [|reflexivity].
  destruct (drv_call c d); reflexivity.
Qed.

Lemma keeps_show_child n b : keeps_names (Dev := Dev) (show_child n b).
Proof.
  intros st. unfold show_child.
  destruct (child n (settings st)); [|reflexivity].
  simpl. apply names_update_child, set_visible_name.
Qed.

Lemma keeps_setting n : keeps_names (Dev := Dev) (setting n).
Proof.
  intros st. unfold setting. now destruct (child n (settings st)).
Qed.

Lemma keeps_set_setting n v : keeps_names (Dev := Dev) (set_setting n v).
Proof.
  intros st. unfold set_setting.
  destruct (child n (settings st)); [|reflexivity].
  simpl. apply names_update_child, set_value_name.
Qed.

Lemma keeps_commit_settings p : keeps_names (Dev := Dev) (commit_settings p).
Proof.
  unfold commit_settings.
  repeat match goal with
         | |- keeps_names (if ?b then _ else _) => destruct b
         | |- keeps_names (bind _ _) => apply keeps_bind; [|intros ?]
         end;
    auto using keeps_device_call, keeps_show_child, keeps_ret.
Qed.

Lemma keeps_commit_all ps : keeps_names (Dev := Dev) (commit_all ps).
Proof.
  induction ps as [|p ps IH]; simpl.
  - apply keeps_ret.
  - apply keeps_bind; [apply keeps_commit_settings|intros _; exact IH].
Qed.

Lemma keeps_ini_stage old : keeps_names (Dev := Dev) (ini_stage old).
Proof.
  unfold ini_stage.
  repeat (apply keeps_bind; [|intros ?]);
    auto using keeps_setting, keeps_commit_all, keeps_ret.
  - intros st. now destruct (SR542 "serial" a "115200").
  - intros st. now destruct (ini_stage_init (settings st) old (Some a0)).
  - intros st. now destruct (controller st).
  - intros st. reflexivity.
Qed.

Lemma keeps_get_actuator_value : keeps_names (Dev := Dev) get_actuator_value.
Proof.
  intros st. unfold get_actuator_value.
  destruct (controller st) as [d|]; [|reflexivity].
  now destruct (config_phase d).
Qed.

Lemma keeps_move_abs x : keeps_names (Dev := Dev) (move_abs x).
Proof.
  unfold move_abs.
  repeat (apply keeps_bind; [|intros ?]);
    auto using keeps_device_call; intros st; reflexivity.
Qed.

Lemma keeps_move_rel x : keeps_names (Dev := Dev) (move_rel x).
Proof.
  unfold move_rel.
  repeat (apply keeps_bind; [|intros ?]);
    auto using keeps_device_call; intros st; reflexivity.
Qed.

Lemma keeps_stop_motion : keeps_names (Dev := Dev) stop_motion.
Proof.
  unfold stop_motion. apply keeps_bind; [|intros _].
  - apply keeps_device_call.
  - apply keeps_set_setting.
Qed.

Lemma step_names st st' :
  step st st' -> names (settings st') = names (settings st).
Proof.
  destruct 1.
  - apply keeps_ini_stage.
  - apply keeps_commit_settings.
  - apply keeps_get_actuator_value.
  - apply keeps_move_abs.
  - apply keeps_move_rel.
  - reflexivity.
  - apply keeps_stop_motion.
  - apply keeps_device_call.
  - apply names_update_child, set_value_name.
  - reflexivity.
Qed.

(** The invariant: no reachable state has lost or renamed a child. *)
Lemma reachable_names table st :
  reachable table st -> names (settings st) = names table.
Proof.
  induction 1 as [|st st' _ IH Hstep]; [reflexivity|].
  rewrite (step_names _ _ Hstep). exact IH.
Qed.

Lemma reachable_child cp table st n :
  params cp = Ok table -> reachable table st -> In n plugin_names ->
  exists p, child n (settings st) = Some p.
Proof.
  intros Hp Hr Hn. apply child_of_name.
  change (In n (names (settings st))).
  rewrite (reachable_names _ _ Hr). unfold names.
  rewrite (params_names _ _ Hp). apply in_or_app. now left.
Qed.

End Invariant.

(** ** Running the methods on a connected instance *)

Section Runs.

Context {Dev : Type} `{Driver Dev} `{Host}.

Lemma device_call_ok (st : State Dev) c d d' :
  controller st = Some d -> drv_call c d = Ok d' ->
  device_call c st = (Ok tt, with_controller (Some d') (log (EvCall c) st)).
Proof. intros Hc Hd. unfold device_call. now rewrite Hc, Hd. Qed.

Lemma show_child_ok (st : State Dev) n b p :
  child n (settings st) = Some p ->
  show_child n b st =
  (Ok tt,
   with_settings (update_child n (set_visible b) (settings st))
     (log (if b then EvShow n else EvHide n) st)).
Proof. intros Hc. unfold show_child. now rewrite Hc. Qed.

(** [if c then show_child n true else show_child n false] is
    [show_child n c]. *)
Lemma show_child_if (n : string) (c : bool) :
  (if c then show_child (Dev := Dev) n true else show_child n false)
  = show_child n c.
Proof. now destruct c. Qed.

Lemma commit_source_run (st : State Dev) p d d' pe pf :
  p_name p = "source" ->
  controller st = Some d ->
  drv_call (SetSource (p_value p)) d = Ok d' ->
  child "edge" (settings st) = Some pe ->
  child "internal_freq" (settings st) = Some pf ->
  commit_settings p st = (Ok tt, after_source (p_value p) d' st).
Proof.
  intros Hn Hc Hd He Hf. unfold commit_settings. rewrite Hn. simpl.
  rewrite !show_child_if. unfold bind.
  rewrite (device_call_ok _ _ _ _ Hc Hd).
  rewrite (show_child_ok _ _ _ pe) by exact He.
  rewrite (show_child_ok _ _ _ pf).
  - unfold after_source, with_settings, with_controller, log. simpl.
    now rewrite <- !app_assoc.
  - simpl. rewrite child_update_other; [exact Hf| apply set_visible_name |].
    discriminate.
Qed.

Lemma after_source_visible_edge v d' (st : State Dev) pe :
  child "edge" (settings st) = Some pe ->
  visible "edge" (after_source v d' st) = value_eq_str v "external".
Proof.
  intros He. unfold visible, after_source. simpl.
  rewrite child_update_other; [| apply set_visible_name | discriminate].
  now rewrite (child_update_same _ _ _ pe (set_visible_name _) He).
Qed.

Lemma after_source_visible_freq v d' (st : State Dev) pf :
  child "internal_freq" (settings st) = Some pf ->
  visible "internal_freq" (after_source v d' st) = value_eq_str v "internal".
Proof.
  intros Hf. unfold visible, after_source. simpl.
  rewrite (child_update_same _ _ _ pf (set_visible_name _)); [reflexivity|].
  rewrite child_update_other; [exact Hf | apply set_visible_name | discriminate].
Qed.

Lemma ready_names (st st' : State Dev) d :
  ready st -> names (settings st') = names (settings st) ->
  controller st' = Some d -> ready st'.
Proof.
  intros (_ & He & Hf) Hn Hc. unfold ready. rewrite Hn. eauto.
Qed.

Lemma commit_settings_runs (st : State Dev) p :
  calls_return -> ready st ->
  exists st',
    commit_settings p st = (Ok tt, st') /\
    trace st' = (trace st ++ commit_events p)%list /\
    ready st'.
Proof.
  intros Hret Hrdy. pose proof Hrdy as ([d Hc] & He & Hf).
  assert (Hcall : forall c, device_call c st
            = (Ok tt, with_controller
                        (Some (match drv_call c d with Ok d' => d' | _ => d end))
                        (log (EvCall c) st))).
  { intros c. destruct (Hret c d) as [d' Hd].
    rewrite (device_call_ok _ _ _ _ Hc Hd). now rewrite Hd. }
  assert (Hrdy' : forall ev d', ready (with_controller (Some d') (log ev st))).
  { intros ev d'. eapply ready_names; [exact Hrdy| |]; reflexivity. }
  unfold commit_settings, commit_events.
  destruct (String.eqb (p_name p) "source") eqn:Es.
  - apply String.eqb_eq in Es.
    destruct (child_of_name _ _ He) as [pe Hpe].
    destruct (child_of_name _ _ Hf) as [pf Hpf].
    destruct (Hret (SetSource (p_value p)) d) as [d' Hd].
    exists (after_source (p_value p) d' st). split; [|split].
    + rewrite <- (commit_source_run st p d d' pe pf Es Hc Hd Hpe Hpf).
      unfold commit_settings. now rewrite Es, String.eqb_refl.
    + reflexivity.
    + eapply ready_names; [exact Hrdy| |reflexivity].
      unfold after_source, names. simpl.
      rewrite !names_update_child; auto using set_visible_name.
  - destruct (String.eqb (p_name p) "edge");
      [|destruct (String.eqb (p_name p) "internal_freq");
        [|destruct (String.eqb (p_name p) "control");
          [|destruct (String.eqb (p_name p) "run");
            [destruct (truthy (p_value p))|]]]];
      try (rewrite Hcall; eexists; split; [reflexivity|];
           split; [reflexivity|]; apply Hrdy').
    exists st. split; [reflexivity|]. split; [|exact Hrdy].
    now rewrite app_nil_r.
Qed.

Lemma commit_all_runs ps : forall (st : State Dev),
  calls_return -> ready st ->
  exists st',
    commit_all ps st = (Ok tt, st') /\
    trace st' = (trace st ++ flat_map commit_events ps)%list /\
    ready st'.
Proof.
  induction ps as [|p ps IH]; intros st Hret Hrdy; simpl.
  - exists st. split; [reflexivity|]. split; [|exact Hrdy].
    now rewrite app_nil_r.
  - destruct (commit_settings_runs st p Hret Hrdy) as (st1 & H1 & T1 & R1).
    destruct (IH st1 Hret R1) as (st2 & H2 & T2 & R2).
    exists st2. unfold bind. rewrite H1, H2. split; [reflexivity|].
    split; [|exact R2]. now rewrite T2, T1, app_assoc.
Qed.

Lemma reachable_ready cp table (st : State Dev) d :
  params cp = Ok table -> reachable table st -> controller st = Some d ->
  ready st.
Proof.
  intros Hp Hr Hc. split; [now exists d|].
  rewrite (reachable_names _ _ Hr). unfold names.
  rewrite (params_names _ _ Hp).
  split; apply in_or_app; left; simpl; auto.
Qed.

End Runs.

(** ** The plugin's contract, for every driver and every host *)

Section Contract.

Context {Dev : Type} `{Driver Dev} `{Host}.

(** C1.  After [commit_settings] has been applied to the [source] setting
    of a reachable, connected instance, [edge] is shown exactly when the new
    source value is ['external'] and [internal_freq] exactly when it is
    ['internal']; for any other value both are hidden. *)
Theorem commit_source_visibility cp table (st : State Dev) p d d' :
  params cp = Ok table -> reachable table st ->
  p_name p = "source" ->
  controller st = Some d ->
  drv_call (SetSource (p_value p)) d = Ok d' ->
  exists st',
    commit_settings p st = (Ok tt, st') /\
    (visible "edge" st' = true <-> p_value p = VStr "external") /\
    (visible "internal_freq" st' = true <-> p_value p = VStr "internal") /\
    (p_value p <> VStr "external" -> p_value p <> VStr "internal" ->
     visible "edge" st' = false /\ visible "internal_freq" st' = false).
Proof.
  intros Hp Hr Hn Hc Hd.
  destruct (reachable_child cp table st "edge" Hp Hr) as [pe He];
    [simpl; auto|].
  destruct (reachable_child cp table st "internal_freq" Hp Hr) as [pf Hf];
    [simpl; auto|].
  exists (after_source (p_value p) d' st).
  rewrite (commit_source_run st p d d' pe pf Hn Hc Hd He Hf).
  rewrite (after_source_visible_edge _ _ _ pe He).
  rewrite (after_source_visible_freq _ _ _ pf Hf).
  rewrite <- !value_eq_str_spec.
  repeat split; try tauto.
  - now apply not_true_is_false.
  - now apply not_true_is_false.
Qed.

(** C4, as the code has it.  [commit_settings] dispatches on the name.
    On a reachable, connected instance whose driver calls return:
    [source] issues the one write [config.source] and then shows or hides
    [edge] and [internal_freq]; [edge], [internal_freq] and [control] each
    issue their one configuration write; [run] issues [operate.run()] or
    [operate.stop()]; [com_port] issues nothing and leaves the instance as
    it was. *)
Theorem commit_settings_dispatch cp table (st : State Dev) p d :
  params cp = Ok table -> reachable table st ->
  controller st = Some d -> calls_return ->
  exists st',
    commit_settings p st = (Ok tt, st') /\
    (p_name p = "source" ->
     trace st' =
     trace st ++
       [ EvCall (SetSource (p_value p));
         (if value_eq_str (p_value p) "external"
          then EvShow "edge" else EvHide "edge");
         (if value_eq_str (p_value p) "internal"
          then EvShow "internal_freq" else EvHide "internal_freq") ])%list /\
    (p_name p = "edge" ->
     trace st' = trace st ++ [EvCall (SetSyncEdge (p_value p))])%list /\
    (p_name p = "internal_freq" ->
     trace st' = trace st ++ [EvCall (SetInternalFreq (p_value p))])%list /\
    (p_name p = "control" ->
     trace st' = trace st ++ [EvCall (SetControlTarget (p_value p))])%list /\
    (p_name p = "run" ->
     trace st' =
     trace st ++
       [EvCall (if truthy (p_value p) then OperateRun else OperateStop)])%list /\
    (p_name p = "com_port" -> st' = st).
Proof.
  intros Hp Hr Hc Hret.
  destruct (commit_settings_runs st p Hret (reachable_ready _ _ _ _ Hp Hr Hc))
    as (st' & Hrun & Htr & _).
  exists st'. split; [exact Hrun|].
  unfold commit_events in Htr.
  repeat split; intros Hn; rewrite Hn in *; simpl in *; try exact Htr.
  unfold commit_settings in Hrun. rewrite Hn in Hrun. simpl in Hrun.
  now injection Hrun.
Qed.

(** C5.  Whatever the [run] setting held, [stop_motion] on a reachable,
    connected instance first issues [operate.stop()] to the device and then
    leaves [run] at [False]. *)
Theorem stop_motion_resets_run cp table (st : State Dev) d d' :
  params cp = Ok table -> reachable table st ->
  controller st = Some d ->
  drv_call OperateStop d = Ok d' ->
  exists st',
    stop_motion st = (Ok tt, st') /\
    trace st' = (trace st ++ [EvCall OperateStop])%list /\
    controller st' = Some d' /\
    value_of "run" st' = Some (VBool false).
Proof.
  intros Hp Hr Hc Hd.
  destruct (reachable_child cp table st "run" Hp Hr) as [pr Hrun];
    [simpl; tauto|].
  unfold stop_motion, bind. rewrite (device_call_ok _ _ _ _ Hc Hd).
  unfold set_setting. simpl. rewrite Hrun.
  eexists. split; [reflexivity|]. simpl. repeat split.
  unfold value_of. simpl.
  now rewrite (child_update_same _ _ _ pr (set_value_name _) Hrun).
Qed.

(** C9.  With the controller still the [None] that [ini_attributes] sets,
    [close] raises [AttributeError] (there is no [disconnect] on [None])
    and changes nothing. *)
Theorem close_before_ini_stage_raises (st : State Dev) :
  close (ini_attributes st)
  = (Raise (AttributeError "disconnect"), ini_attributes st).
Proof. reflexivity. Qed.

End Contract.

(** C10.  The default of [com_port] is [comports[0]]: with no serial port
    the table cannot be built ([IndexError]); with at least one, it is
    built and the default is the first port. *)
Theorem params_needs_a_port `{Host} :
  params (comports []) = Raise IndexError /\
  forall port desc hwid rest,
  exists table,
    params (comports ((port, desc, hwid) :: rest)) = Ok table /\
    option_map p_value (child "com_port" table) = Some (VStr port) /\
    option_map p_limits (child "com_port" table)
    = Some (map VStr (port :: comports rest)).
Proof.
  split; [reflexivity|]. intros port desc hwid rest.
  eexists. split; [reflexivity|]. split; reflexivity.
Qed.

(** ** Initialisation and moves *)

Section Moves.

Context {Dev : Type} `{Driver Dev} `{Host}.

Lemma value_of_child (st : State Dev) n v :
  value_of n st = Some v ->
  exists p, child n (settings st) = Some p /\ p_value p = v.
Proof.
  unfold value_of. destruct (child n (settings st)) as [p|]; [|discriminate].
  intros [= <-]. now exists p.
Qed.

Lemma ini_stage_raise (st : State Dev) old port e :
  value_of "com_port" st = Some port ->
  SR542 "serial" port "115200" = Raise e ->
  ini_stage old st = (Raise e, log (EvConnect "serial" port "115200") st).
Proof.
  intros Hv He. destruct (value_of_child _ _ _ Hv) as (p & Hc & <-).
  unfold ini_stage, bind, setting. now rewrite Hc, He.
Qed.

Lemma ini_stage_run cp table (st : State Dev) old port d c :
  params cp = Ok table -> reachable table st ->
  value_of "com_port" st = Some port ->
  SR542 "serial" port "115200" = Ok d ->
  ini_stage_init (settings st) old (Some d) = Ok (Some c) ->
  calls_return ->
  exists st',
    ini_stage old st = (Ok ("Chopper initialized", is_connected c), st') /\
    commit_all (settings st)
      (log EvIsConnected
         (with_controller (Some c)
            (log (EvConnect "serial" port "115200") st)))
    = (Ok tt, st') /\
    trace st' =
    (trace st ++ [EvConnect "serial" port "115200"; EvIsConnected]
       ++ flat_map commit_events (settings st))%list.
Proof.
  intros Hp Hr Hv Hd Hi Hret.
  destruct (value_of_child _ _ _ Hv) as (p & Hc & <-).
  set (st1 := log EvIsConnected
                (with_controller (Some c)
                   (log (EvConnect "serial" (p_value p) "115200") st))).
  assert (Hrdy : ready st1).
  { split; [now exists c|]. change (settings st1) with (settings st).
    rewrite (reachable_names _ _ Hr). unfold names.
    rewrite (params_names _ _ Hp).
    split; apply in_or_app; left; simpl; auto. }
  destruct (commit_all_runs (settings st) st1 Hret Hrdy) as (st2 & H2 & T2 & _).
  exists st2. unfold ini_stage, bind, setting. rewrite Hc, Hd. simpl.
  rewrite Hi. simpl. fold st1. rewrite H2. split; [reflexivity|].
  split; [reflexivity|]. rewrite T2. unfold st1. simpl. now rewrite <- !app_assoc.
Qed.



End Moves.

Section MoveContract.

Context {Dev : Type} `{Driver Dev} `{Host}.

(** C2, as the code has it.  [ini_stage] has no exception handler.  When
    the driver's constructor raises for the port, that exception leaves
    [ini_stage].  When it returns an object that reports it is not
    connected, and the driver calls made while the settings are applied
    return, [ini_stage] returns [("Chopper initialized", False)]. *)
Theorem ini_stage_without_connection cp table (st : State Dev) old port :
  params cp = Ok table -> reachable table st ->
  value_of "com_port" st = Some port ->
  (forall e,
     SR542 "serial" port "115200" = Raise e ->
     fst (ini_stage old st) = Raise e) /\
  (forall d c,
     SR542 "serial" port "115200" = Ok d ->
     ini_stage_init (settings st) old (Some d) = Ok (Some c) ->
     is_connected c = false ->
     calls_return ->
     fst (ini_stage old st) = Ok ("Chopper initialized", false)).
Proof.
  intros Hp Hr Hv. split.
  - intros e He. now rewrite (ini_stage_raise st old port e Hv He).
  - intros d c Hd Hi Hcon Hret.
    destruct (ini_stage_run cp table st old port d c Hp Hr Hv Hd Hi Hret)
      as (st' & Hrun & _).
    now rewrite Hrun, Hcon.
Qed.

(** C8.  [ini_stage] opens the connection on the port held by the
    [com_port] setting; it then dispatches every child of the settings
    tree, in tree order, through [commit_settings] (the state it ends in is
    the one the loop over the children ends in, and the calls logged are
    those of each child in turn); and the flag it returns is what
    [is_connected] answered on the controller. *)
Theorem ini_stage_applies_settings cp table (st : State Dev) old port d c :
  params cp = Ok table -> reachable table st ->
  value_of "com_port" st = Some port ->
  SR542 "serial" port "115200" = Ok d ->
  ini_stage_init (settings st) old (Some d) = Ok (Some c) ->
  calls_return ->
  exists st',
    ini_stage old st = (Ok ("Chopper initialized", is_connected c), st') /\
    commit_all (settings st)
      (log EvIsConnected
         (with_controller (Some c)
            (log (EvConnect "serial" port "115200") st)))
    = (Ok tt, st') /\
    trace st' =
    (trace st ++ [EvConnect "serial" port "115200"; EvIsConnected]
       ++ flat_map commit_events (settings st))%list.
Proof. exact (ini_stage_run cp table st old port d c). Qed.


End MoveContract.

(** ** The contract on concrete instances *)

Lemma open_driver_calls_return : calls_return (H := open_driver).
Proof. intros c d. eexists. reflexivity. Qed.

Lemma silent_driver_calls_return : calls_return (H := silent_driver).
Proof. intros c d. eexists. reflexivity. Qed.

Lemma sample_params (h : Host) :
  params (H := h) ["COM3"; "COM9"] = Ok (sample_table (H := h)).
Proof. reflexivity. Qed.

Lemma connected_reachable (h : Host) :
  reachable (H := open_driver) (H0 := h) (sample_table (H := h))
    (connected_instance h).
Proof.
  eapply reach_step; [apply reach_init|].
  apply (step_ini_stage (H := open_driver) (H0 := h) None).
Qed.

Lemma run_pushed_reachable (h : Host) :
  reachable (H := open_driver) (H0 := h) (sample_table (H := h))
    (run_pushed_instance h).
Proof.
  eapply reach_step; [apply connected_reachable|].
  apply (step_edit (H := open_driver) (H0 := h) "run" (VBool true)).
Qed.

Lemma commit_source_visibility_witness :
  exists st',
    commit_settings (H := open_driver) (source_param (VStr "external"))
      (connected_instance plain_host) = (Ok tt, st') /\
    visible "edge" st' = true /\
    visible "internal_freq" st' = false.
Proof.
  destruct (commit_source_visibility (H := open_driver) (H0 := plain_host)
              ["COM3"; "COM9"] sample_table (connected_instance plain_host)
              (source_param (VStr "external"))
              (connected_device plain_host)
              (sim_apply (SetSource (VStr "external"))
                 (connected_device plain_host))
              (sample_params plain_host)
              (connected_reachable plain_host)
              eq_refl eq_refl eq_refl)
    as (st' & Hrun & He & Hf & _).
  exists st'. split; [exact Hrun|]. split.
  - now apply He.
  - apply not_true_is_false. intros Hv. now apply Hf in Hv.
Defined.

(** C4 as stated fails on [com_port]: the call returns having issued no
    device write and no visibility toggle, so not exactly one; and on
    [source] it issues three actions, the write and two toggles. *)
Lemma commit_com_port_issues_nothing :
  let st := connected_instance plain_host in
  In (p_name com_port_param) plugin_names /\
  child "com_port" (settings st) = Some com_port_param /\
  commit_settings (H := open_driver) com_port_param st = (Ok tt, st) /\
  (~ exists ev,
       trace (snd (commit_settings (H := open_driver) com_port_param st))
       = (trace st ++ [ev])%list) /\
  (~ exists ev,
       trace (snd (commit_settings (H := open_driver)
                     (source_param (VStr "vco")) st))
       = (trace st ++ [ev])%list).
Proof.
  cbv zeta. split; [simpl; auto|]. split; [reflexivity|].
  split; [reflexivity|]. split; intros [ev Hev];
    apply (f_equal (@length Event)) in Hev;
    rewrite length_app in Hev; vm_compute in Hev; discriminate.
Qed.

Lemma commit_settings_dispatch_witness :
  exists st',
    commit_settings (H := open_driver) (source_param (VStr "vco"))
      (connected_instance plain_host) = (Ok tt, st') /\
    trace st' =
    (trace (connected_instance plain_host)
       ++ [EvCall (SetSource (VStr "vco")); EvHide "edge";
           EvHide "internal_freq"])%list.
Proof.
  destruct (commit_settings_dispatch (H := open_driver) (H0 := plain_host)
              ["COM3"; "COM9"] sample_table (connected_instance plain_host)
              (source_param (VStr "vco")) (connected_device plain_host)
              (sample_params plain_host)
              (connected_reachable plain_host)
              eq_refl open_driver_calls_return)
    as (st' & Hrun & Hsrc & _).
  exists st'. split; [exact Hrun|]. exact (Hsrc eq_refl).
Defined.

Lemma stop_motion_resets_run_witness :
  value_of "run" (run_pushed_instance plain_host) = Some (VBool true) /\
  exists st',
    stop_motion (H := open_driver) (run_pushed_instance plain_host)
    = (Ok tt, st') /\
    trace st' =
    (trace (run_pushed_instance plain_host) ++ [EvCall OperateStop])%list /\
    value_of "run" st' = Some (VBool false).
Proof.
  split; [reflexivity|].
  destruct (stop_motion_resets_run (H := open_driver) (H0 := plain_host)
              ["COM3"; "COM9"] sample_table (run_pushed_instance plain_host)
              (connected_device plain_host)
              (sim_apply OperateStop (connected_device plain_host))
              (sample_params plain_host)
              (run_pushed_reachable plain_host)
              eq_refl eq_refl)
    as (st' & Hrun & Htr & _ & Hv).
  exists st'. auto.
Defined.

(** C2 as stated fails when the driver's constructor raises on a port it
    cannot open: [ini_stage] does not return a flag, it raises. *)
Lemma ini_stage_raises_on_unreachable_port :
  let st := fresh_instance plain_host in
  value_of "com_port" st = Some (VStr "COM3") /\
  unreachable_port (H := raising_driver) (VStr "COM3") /\
  fst (ini_stage (H := raising_driver) (H0 := plain_host) None st)
  = Raise (External "could not open port") /\
  ~ exists info st',
      ini_stage (H := raising_driver) (H0 := plain_host) None st
      = (Ok (info, false), st').
Proof.
  cbv zeta. split; [reflexivity|]. split; [exact I|].
  split; [reflexivity|]. intros (info & st' & Hrun).
  vm_compute in Hrun. discriminate.
Qed.

Lemma ini_stage_without_connection_witness :
  fst (ini_stage (H := raising_driver) (H0 := plain_host) None
         (fresh_instance plain_host))
  = Raise (External "could not open port") /\
  fst (ini_stage (H := silent_driver) (H0 := plain_host) None
         (fresh_instance plain_host))
  = Ok ("Chopper initialized", false).
Proof.
  split.
  - apply (proj1 (ini_stage_without_connection
                    (H := raising_driver) (H0 := plain_host)
                    ["COM3"; "COM9"] sample_table (fresh_instance plain_host)
                    None (VStr "COM3")
                    (sample_params plain_host) (reach_init _) eq_refl)).
    reflexivity.
  - apply (proj2 (ini_stage_without_connection
                    (H := silent_driver) (H0 := plain_host)
                    ["COM3"; "COM9"] sample_table (fresh_instance plain_host)
                    None (VStr "COM3")
                    (sample_params plain_host) (reach_init _) eq_refl)
             (sim_fresh (VStr "COM3") false) (sim_fresh (VStr "COM3") false)).
    + reflexivity.
    + reflexivity.
    + reflexivity.
    + exact silent_driver_calls_return.
Defined.

Lemma ini_stage_applies_settings_witness :
  exists st',
    ini_stage (H := open_driver) (H0 := plain_host) None
      (fresh_instance plain_host)
    = (Ok ("Chopper initialized", true), st') /\
    trace st' =
    [ EvConnect "serial" (VStr "COM3") "115200"; EvIsConnected;
      EvCall (SetSource (VStr "internal"));
      EvHide "edge"; EvShow "internal_freq";
      EvCall (SetSyncEdge (VStr "rise"));
      EvCall (SetInternalFreq (VFloat 100));
      EvCall (SetControlTarget (VStr "outer"));
      EvCall OperateStop ].
Proof.
  destruct (ini_stage_applies_settings (H := open_driver) (H0 := plain_host)
              ["COM3"; "COM9"] sample_table (fresh_instance plain_host)
              None (VStr "COM3")
              (sim_fresh (VStr "COM3") true) (sim_fresh (VStr "COM3") true)
              (sample_params plain_host) (reach_init _)
              eq_refl eq_refl eq_refl open_driver_calls_return)
    as (st' & Hrun & _ & Htr).
  exists st'. split; [exact Hrun|]. exact Htr.
Defined.


(** C3 fails on the code.  With the host's scaling switched on (scale 2,
    offset 10), from position 0, [move_rel 4] and [move_abs (0 + 4)] agree
    on the target, 4, but [move_abs] writes the scaled value 4/2 + 10 = 12
    to the phase while [move_rel] writes the unscaled target 4: the value
    it gets from [set_position_relative_with_scaling] is never used. *)
Theorem move_rel_writes_unscaled_target :
  let st := connected_instance scaled_host in
  let rel := move_rel (H := open_driver) (H0 := scaled_host) 4%float st in
  let abs :=
    move_abs (H := open_driver) (H0 := scaled_host)
      (current_position st + 4)%float st in
  fst rel = Ok tt /\ fst abs = Ok tt /\
  target_value (snd rel) = 4%float /\
  target_value (snd abs) = 4%float /\
  phase_register (snd rel) = Some 4%float /\
  phase_register (snd abs) = Some 12%float /\
  phase_register (snd rel) <> phase_register (snd abs).
Proof.
  cbv zeta. repeat split; try reflexivity.
  vm_compute. discriminate.
Qed.

(** * Further properties of the methods *)

(** ** What each method leaves alone *)

Lemma values_update_visible n b ps :
  values (update_child n (set_visible b) ps) = values ps.
Proof.
  induction ps as [|p ps IH]; simpl; [reflexivity|].
  destruct (String.eqb (p_name p) n); simpl; [reflexivity|].
  f_equal. exact IH.
Qed.

Lemma visibilities_update_value n v ps :
  visibilities (update_child n (set_value v) ps) = visibilities ps.
Proof.
  induction ps as [|p ps IH]; simpl; [reflexivity|].
  destruct (String.eqb (p_name p) n); simpl; [reflexivity|].
  f_equal. exact IH.
Qed.

Section Frame.

Context {Dev : Type} `{Driver Dev} `{Host}.
Context {B : Type} (f : State Dev -> B).

Hypothesis f_log : forall ev st, f (log ev st) = f st.
Hypothesis f_controller : forall c st, f (with_controller c st) = f st.
Hypothesis f_target : forall x st, f (with_target_value x st) = f st.
Hypothesis f_show : forall n b st,
  n = "edge" \/ n = "internal_freq" ->
  f (with_settings (update_child n (set_visible b) (settings st)) st) = f st.
Hypothesis f_run : forall v st,
  f (with_settings (update_child "run" (set_value v) (settings st)) st) = f st.

Lemma preserves_ret {A} (a : A) : preserves f (ret a).
Proof. intros st. reflexivity. Qed.

Lemma preserves_bind {A C} (m : M Dev A) (k : A -> M Dev C) :
  preserves f m -> (forall a, preserves f (k a)) -> preserves f (bind m k).
Proof.
  intros Hm Hk st. unfold bind. specialize (Hm st).
  destruct (m st) as [[a|e] st']; simpl in *.
  - now rewrite Hk.
  - exact Hm.
Qed.

Lemma preserves_device_call c : preserves f (device_call c).
Proof.
  intros st. unfold device_call.
  destruct (controller st) as [d|]; [|reflexivity].
  destruct (drv_call c d); simpl; now rewrite ?f_controller, f_log.
Qed.

Lemma preserves_show_child n b :
  n = "edge" \/ n = "internal_freq" -> preserves f (show_child n b).
Proof.
  intros Hn st. unfold show_child.
  destruct (child n (settings st)); [|reflexivity].
  simpl. rewrite <- (f_log (if b then EvShow n else EvHide n) st).
  exact (f_show n b (log (if b then EvShow n else EvHide n) st) Hn).
Qed.

Lemma preserves_commit_settings p : preserves f (commit_settings p).
Proof.
  unfold commit_settings.
  repeat match goal with
         | |- preserves f (if ?b then _ else _) => destruct b
         | |- preserves f (bind _ _) => apply preserves_bind; [|intros ?]
         end;
    auto using preserves_device_call, preserves_show_child, preserves_ret.
Qed.

Lemma preserves_commit_all ps : preserves f (commit_all ps).
Proof.
  induction ps as [|p ps IH]; simpl.
  - apply preserves_ret.
  - apply preserves_bind; [apply preserves_commit_settings|intros _; exact IH].
Qed.

Lemma preserves_ini_stage old : preserves f (ini_stage old).
Proof.
  unfold ini_stage.
  repeat (apply preserves_bind; [|intros ?]);
    auto using preserves_commit_all, preserves_ret.
  - intros st. unfold setting. now destruct (child "com_port" (settings st)).
  - intros st. destruct (SR542 "serial" a "115200"); simpl; apply f_log.
  - intros st.
    destruct (ini_stage_init (settings st) old (Some a0)); simpl;
      [apply f_controller|reflexivity].
  - intros st. destruct (controller st); simpl; [apply f_log|reflexivity].
  - intros st. reflexivity.
Qed.

Lemma preserves_get_actuator_value : preserves f get_actuator_value.
Proof.
  intros st. unfold get_actuator_value.
  destruct (controller st) as [d|]; [|reflexivity].
  destruct (config_phase d); simpl; apply f_log.
Qed.

Lemma preserves_stop_motion : preserves f stop_motion.
Proof.
  unfold stop_motion. apply preserves_bind; [|intros _].
  - apply preserves_device_call.
  - intros st. unfold set_setting.
    destruct (child "run" (settings st)); [|reflexivity].
    simpl. apply f_run.
Qed.

Lemma preserves_move_abs x : preserves f (move_abs x).
Proof.
  unfold move_abs.
  repeat (apply preserves_bind; [|intros ?]);
    auto using preserves_device_call; intros st; simpl;
    reflexivity || apply f_target.
Qed.

Lemma preserves_move_rel x : preserves f (move_rel x).
Proof.
  unfold move_rel.
  repeat (apply preserves_bind; [|intros ?]);
    auto using preserves_device_call; intros st; simpl;
    reflexivity || apply f_target.
Qed.

End Frame.

Section FrameTheorems.

Context {Dev : Type} `{Driver Dev} `{Host}.

(** X1.  In every reachable state the settings tree has exactly the
    children of the table, under their names and in their order: the
    plugin's eight followed by the common parameters. *)
Theorem settings_names_invariant cp table (st : State Dev) :
  params cp = Ok table -> reachable table st ->
  names (settings st) =
  (plugin_names
     ++ names (comon_parameters_fun is_multiaxes _axis_names _epsilon))%list.
Proof.
  intros Hp Hr. rewrite (reachable_names _ _ Hr).
  exact (params_names _ _ Hp).
Qed.

(** X2.  No method of the plugin writes the cached current position,
    whatever its outcome. *)
Theorem current_position_never_written (st : State Dev) p old x :
  current_position (snd (commit_settings p st)) = current_position st /\
  current_position (snd (ini_stage old st)) = current_position st /\
  current_position (snd (get_actuator_value st)) = current_position st /\
  current_position (snd (move_abs x st)) = current_position st /\
  current_position (snd (move_rel x st)) = current_position st /\
  current_position (snd (move_home st)) = current_position st /\
  current_position (snd (stop_motion st)) = current_position st /\
  current_position (snd (close st)) = current_position st.
Proof.
  repeat split.
  - apply (preserves_commit_settings current_position); reflexivity.
  - apply (preserves_ini_stage current_position); reflexivity.
  - apply (preserves_get_actuator_value current_position); reflexivity.
  - apply (preserves_move_abs current_position); reflexivity.
  - apply (preserves_move_rel current_position); reflexivity.
  - apply (preserves_stop_motion current_position); reflexivity.
  - apply (preserves_device_call current_position); reflexivity.
Qed.

(** X3.  The target value is written by the two moves only, and they write
    it before the device is touched: after [move_abs] it is the clamped
    value and after [move_rel] the clamped sum taken back to the cached
    position, also when the call raises.  Every other method leaves it as
    it was. *)
Theorem target_value_written_by_moves_only (st : State Dev) p old x :
  target_value (snd (move_abs x st)) = check_bound (settings st) x /\
  target_value (snd (move_rel x st)) = rel_target st x /\
  target_value (snd (commit_settings p st)) = target_value st /\
  target_value (snd (ini_stage old st)) = target_value st /\
  target_value (snd (get_actuator_value st)) = target_value st /\
  target_value (snd (move_home st)) = target_value st /\
  target_value (snd (stop_motion st)) = target_value st /\
  target_value (snd (close st)) = target_value st.
Proof.
  repeat split.
  - unfold move_abs, bind, device_call. simpl.
    destruct (controller st) as [d|]; [|reflexivity].
    now destruct (drv_call _ d).
  - unfold move_rel, bind, device_call. simpl.
    destruct (controller st) as [d|]; [|reflexivity].
    now destruct (drv_call _ d).
  - apply (preserves_commit_settings target_value); reflexivity.
  - apply (preserves_ini_stage target_value); reflexivity.
  - apply (preserves_get_actuator_value target_value); reflexivity.
  - apply (preserves_stop_motion target_value); reflexivity.
  - apply (preserves_device_call target_value); reflexivity.
Qed.

(** X4.  The moves, [get_actuator_value] and [close] never touch the
    settings tree. *)
Theorem moves_leave_settings (st : State Dev) x :
  settings (snd (move_abs x st)) = settings st /\
  settings (snd (move_rel x st)) = settings st /\
  settings (snd (move_home st)) = settings st /\
  settings (snd (get_actuator_value st)) = settings st /\
  settings (snd (close st)) = settings st.
Proof.
  repeat split.
  - apply (preserves_move_abs settings); reflexivity.
  - apply (preserves_move_rel settings); reflexivity.
  - apply (preserves_get_actuator_value settings); reflexivity.
  - apply (preserves_device_call settings); reflexivity.
Qed.

(** X5.  [commit_settings] and [ini_stage] never change the value of a
    setting: what the user chose is only read. *)
Theorem commit_and_ini_stage_keep_values (st : State Dev) p old :
  values (settings (snd (commit_settings p st))) = values (settings st) /\
  values (settings (snd (ini_stage old st))) = values (settings st).
Proof.
  split.
  - apply (preserves_commit_settings (fun s => values (settings s)));
      try reflexivity.
    intros n b s _. apply values_update_visible.
  - apply (preserves_ini_stage (fun s => values (settings s)));
      try reflexivity.
    intros n b s _. apply values_update_visible.
Qed.

(** X6.  The only children [commit_settings] and [ini_stage] can change
    are [edge] and [internal_freq]: every other child is after the call
    what it was before. *)
Theorem commit_and_ini_stage_touch_two_children (st : State Dev) p old n :
  n <> "edge" -> n <> "internal_freq" ->
  child n (settings (snd (commit_settings p st))) = child n (settings st) /\
  child n (settings (snd (ini_stage old st))) = child n (settings st).
Proof.
  intros He Hf.
  assert (Hshow : forall m b (s : State Dev),
             m = "edge" \/ m = "internal_freq" ->
             child n (settings (with_settings
                                  (update_child m (set_visible b) (settings s))
                                  s))
             = child n (settings s)).
  { intros m b s Hm. simpl. apply child_update_other.
    - apply set_visible_name.
    - destruct Hm; congruence. }
  split.
  - apply (preserves_commit_settings (fun s => child n (settings s)));
      try reflexivity. exact Hshow.
  - apply (preserves_ini_stage (fun s => child n (settings s)));
      try reflexivity. exact Hshow.
Qed.

(** X7.  [stop_motion] changes nothing in the settings tree but the value
    of [run]: every other child is untouched and no visibility flag
    moves. *)
Theorem stop_motion_touches_run_only (st : State Dev) n :
  n <> "run" ->
  child n (settings (snd (stop_motion st))) = child n (settings st) /\
  visibilities (settings (snd (stop_motion st))) = visibilities (settings st).
Proof.
  intros Hn. split.
  - apply (preserves_stop_motion (fun s => child n (settings s)));
      try reflexivity.
    intros v s. simpl. apply child_update_other; [apply set_value_name|exact Hn].
  - apply (preserves_stop_motion (fun s => visibilities (settings s)));
      try reflexivity.
    intros v s. apply visibilities_update_value.
Qed.

End FrameTheorems.

(** ** Error behaviour *)

Section Errors.

Context {Dev : Type} `{Driver Dev} `{Host}.

(** X8.  Without a controller (before [ini_stage]) every method that needs
    the device raises [AttributeError].  [get_actuator_value],
    [stop_motion] and a dispatched [commit_settings] leave the instance
    untouched ([run] is not reset); the two moves have already overwritten
    the target value when they raise. *)
Theorem methods_without_controller (st : State Dev) x p :
  controller st = None ->
  get_actuator_value st = (Raise (AttributeError "config"), st) /\
  stop_motion st = (Raise (AttributeError "operate"), st) /\
  move_abs x st =
  (Raise (AttributeError "config"),
   with_target_value (check_bound (settings st) x) st) /\
  move_rel x st =
  (Raise (AttributeError "config"), with_target_value (rel_target st x) st) /\
  (In (p_name p) dispatched_names ->
   commit_settings p st =
   (Raise (AttributeError
             (if String.eqb (p_name p) "run" then "operate" else "config")),
    st)).
Proof.
  intros Hc. repeat split.
  - unfold get_actuator_value. now rewrite Hc.
  - unfold stop_motion, bind, device_call. now rewrite Hc.
  - unfold move_abs, bind, device_call. simpl. now rewrite Hc.
  - unfold move_rel, bind, device_call. simpl. now rewrite Hc.
  - intros Hin. unfold commit_settings.
    simpl in Hin.
    destruct Hin as [<-|[<-|[<-|[<-|[<-|[]]]]]]; simpl;
      try destruct (truthy (p_value p));
      unfold bind, device_call; now rewrite Hc.
Qed.

(** X9.  A parameter whose name has no branch in [commit_settings]
    ([com_port], [n], [m] and the common parameters) is ignored: the call
    returns, with or without a controller, and nothing has changed. *)
Theorem commit_settings_other_names (st : State Dev) p :
  ~ In (p_name p) dispatched_names ->
  commit_settings p st = (Ok tt, st).
Proof.
  intros Hn. unfold commit_settings.
  repeat match goal with
         | |- context [String.eqb (p_name p) ?s] =>
             destruct (String.eqb (p_name p) s) eqn:?
         end;
    try reflexivity;
    exfalso; apply Hn;
    match goal with
    | E : String.eqb _ _ = true |- _ => apply String.eqb_eq in E; rewrite E
    end; simpl; tauto.
Qed.

(** X10.  When [operate.stop()] raises, [stop_motion] raises the same
    exception and the [run] setting is not reset. *)
Theorem stop_motion_failure_keeps_run (st : State Dev) d e :
  controller st = Some d ->
  drv_call OperateStop d = Raise e ->
  stop_motion st = (Raise e, log (EvCall OperateStop) st) /\
  value_of "run" (snd (stop_motion st)) = value_of "run" st.
Proof.
  intros Hc Hd.
  assert (Hrun : stop_motion st = (Raise e, log (EvCall OperateStop) st)).
  { unfold stop_motion, bind, device_call. now rewrite Hc, Hd. }
  split; [exact Hrun|]. now rewrite Hrun.
Qed.

(** X11.  When the write of [config.source] raises, [commit_settings]
    raises the same exception before any show or hide: the visibility of
    [edge] and [internal_freq] is what it was. *)
Theorem commit_source_failure_keeps_visibility (st : State Dev) p d e :
  p_name p = "source" ->
  controller st = Some d ->
  drv_call (SetSource (p_value p)) d = Raise e ->
  commit_settings p st = (Raise e, log (EvCall (SetSource (p_value p))) st) /\
  visible "edge" (snd (commit_settings p st)) = visible "edge" st /\
  visible "internal_freq" (snd (commit_settings p st))
  = visible "internal_freq" st.
Proof.
  intros Hn Hc Hd.
  assert (Hrun : commit_settings p st
                 = (Raise e, log (EvCall (SetSource (p_value p))) st)).
  { unfold commit_settings. rewrite Hn. simpl.
    unfold bind, device_call. now rewrite Hc, Hd. }
  rewrite Hrun. repeat split.
Qed.

(** X12.  When the write of [config.phase] raises, [move_abs] raises the
    same exception; the controller is unchanged, but the target value has
    already been set to the clamped value. *)
Theorem move_abs_failure (st : State Dev) x d e :
  controller st = Some d ->
  drv_call (SetPhase (set_position_with_scaling (settings st)
                        (check_bound (settings st) x))) d = Raise e ->
  exists st',
    move_abs x st = (Raise e, st') /\
    controller st' = Some d /\
    target_value st' = check_bound (settings st) x /\
    trace st' =
    (trace st ++ [EvCall (SetPhase (set_position_with_scaling (settings st)
                                      (check_bound (settings st) x)))])%list.
Proof.
  intros Hc Hd. unfold move_abs, bind, device_call. simpl.
  rewrite Hc, Hd. eexists. split; [reflexivity|]. simpl. repeat split.
  exact Hc.
Qed.

(** X13.  [close] does not clear [self.controller]: after it the instance
    still holds the driver object, so a second [close] calls [disconnect]
    on that object again, and whether it fails is up to the driver. *)
Theorem close_keeps_controller (st : State Dev) d d1 :
  controller st = Some d ->
  drv_call Disconnect d = Ok d1 ->
  close st = (Ok tt, with_controller (Some d1) (log (EvCall Disconnect) st)) /\
  (forall d2, drv_call Disconnect d1 = Ok d2 ->
     bind close (fun _ => close) st =
     (Ok tt,
      mkState (Some d2) (settings st) (current_position st) (target_value st)
        (trace st ++ [EvCall Disconnect; EvCall Disconnect]))) /\
  (forall e, drv_call Disconnect d1 = Raise e ->
     fst (bind close (fun _ => close) st) = Raise e).
Proof.
  intros Hc Hd.
  assert (Hrun : close st
                 = (Ok tt, with_controller (Some d1)
                             (log (EvCall Disconnect) st))).
  { exact (device_call_ok st Disconnect d d1 Hc Hd). }
  split; [exact Hrun|]. split.
  - intros d2 H2. unfold bind. rewrite Hrun.
    unfold close at 1, device_call. simpl. rewrite H2. simpl.
    unfold with_controller, log. simpl. now rewrite <- app_assoc.
  - intros e H2. unfold bind. rewrite Hrun.
    unfold close at 1, device_call. simpl. now rewrite H2.
Qed.

End Errors.

(** ** What [ini_stage] establishes *)

Section IniStage.

Context {Dev : Type} `{Driver Dev} `{Host}.

(** In a reachable state the tree starts with [com_port] and [source]. *)
Lemma reachable_settings_head cp table (st : State Dev) :
  params cp = Ok table -> reachable table st ->
  exists pc ps rest,
    settings st = pc :: ps :: rest /\
    p_name pc = "com_port" /\ p_name ps = "source" /\
    names rest =
    (["edge"; "internal_freq"; "n"; "m"; "control"; "run"]
       ++ names (comon_parameters_fun is_multiaxes _axis_names _epsilon))%list.
Proof.
  intros Hp Hr. pose proof (reachable_names _ _ Hr) as Hn.
  unfold names in Hn. rewrite (params_names _ _ Hp) in Hn.
  destruct (settings st) as [|pc [|ps rest]]; try discriminate.
  simpl in Hn. injection Hn as H1 H2 H3.
  now exists pc, ps, rest.
Qed.

Lemma commit_settings_not_source (st : State Dev) p :
  p_name p <> "source" ->
  settings (snd (commit_settings p st)) = settings st.
Proof.
  intros Hn. apply String.eqb_neq in Hn.
  unfold commit_settings. rewrite Hn.
  repeat match goal with
         | |- context [if ?b then _ else _] => destruct b
         end;
    try reflexivity;
    apply (preserves_device_call settings); reflexivity.
Qed.

Lemma commit_all_not_source ps : forall (st : State Dev),
  ~ In "source" (names ps) ->
  settings (snd (commit_all ps st)) = settings st.
Proof.
  induction ps as [|p ps IH]; intros st Hn; simpl; [reflexivity|].
  simpl in Hn. unfold bind.
  pose proof (commit_settings_not_source st p) as Hp.
  destruct (commit_settings p st) as [[[]|e] st1]; simpl in *.
  - rewrite IH by tauto. apply Hp. intros E. apply Hn. now left.
  - apply Hp. intros E. apply Hn. now left.
Qed.

(** X14.  A successful [ini_stage] leaves the visibility of [edge] and
    [internal_freq] in agreement with the [source] setting: [edge] is
    shown exactly when the source is ['external'], [internal_freq] exactly
    when it is ['internal']. *)
Theorem ini_stage_establishes_visibility
    cp table (st : State Dev) old port v d c :
  params cp = Ok table -> reachable table st ->
  ~ In "source" (names (comon_parameters_fun is_multiaxes _axis_names _epsilon)) ->
  value_of "com_port" st = Some port ->
  value_of "source" st = Some v ->
  SR542 "serial" port "115200" = Ok d ->
  ini_stage_init (settings st) old (Some d) = Ok (Some c) ->
  calls_return ->
  exists st',
    ini_stage old st = (Ok ("Chopper initialized", is_connected c), st') /\
    (visible "edge" st' = true <-> v = VStr "external") /\
    (visible "internal_freq" st' = true <-> v = VStr "internal").
Proof.
  intros Hp Hr Hcommon Hport Hsrc Hd Hi Hret.
  destruct (ini_stage_run cp table st old port d c Hp Hr Hport Hd Hi Hret)
    as (st' & Hrun & Hloop & _).
  exists st'. split; [exact Hrun|].
  destruct (reachable_settings_head cp table st Hp Hr)
    as (pc & ps & rest & Hs & Hnc & Hns & Hrest).
  destruct (reachable_child cp table st "edge" Hp Hr) as [pe He];
    [simpl; auto|].
  destruct (reachable_child cp table st "internal_freq" Hp Hr) as [pf Hf];
    [simpl; auto|].
  assert (Hv : p_value ps = v).
  { unfold value_of in Hsrc. rewrite Hs in Hsrc. simpl in Hsrc.
    rewrite Hnc, Hns in Hsrc. simpl in Hsrc. now injection Hsrc. }
  set (st1 := log EvIsConnected
                (with_controller (Some c)
                   (log (EvConnect "serial" port "115200") st))) in *.
  destruct (Hret (SetSource (p_value ps)) c) as [c' Hc'].
  assert (H1 : commit_settings pc st1 = (Ok tt, st1)).
  { unfold commit_settings. now rewrite Hnc. }
  assert (H2 : commit_settings ps st1
               = (Ok tt, after_source (p_value ps) c' st1)).
  { exact (commit_source_run st1 ps c c' pe pf Hns eq_refl Hc' He Hf). }
  rewrite Hs in Hloop. simpl in Hloop. unfold bind in Hloop.
  rewrite H1, H2 in Hloop.
  assert (Hset : settings st' = settings (after_source (p_value ps) c' st1)).
  { replace st' with (snd (commit_all rest (after_source (p_value ps) c' st1)))
      by now rewrite Hloop.
    apply commit_all_not_source. rewrite Hrest.
    intros Hin. apply in_app_or in Hin. destruct Hin as [Hin|Hin].
    - simpl in Hin. repeat destruct Hin as [Hin|Hin]; discriminate || assumption.
    - now apply Hcommon. }
  unfold visible. rewrite Hset.
  fold (visible "edge" (after_source (p_value ps) c' st1)).
  fold (visible "internal_freq" (after_source (p_value ps) c' st1)).
  rewrite (after_source_visible_edge _ _ st1 pe He).
  rewrite (after_source_visible_freq _ _ st1 pf Hf).
  rewrite Hv, !value_eq_str_spec. tauto.
Qed.

(** X15.  When the connection object is obtained but the first write of
    the settings loop, [config.source], raises, [ini_stage] raises that
    exception; the instance keeps the new controller, and its settings are
    as they were. *)
Theorem ini_stage_failure_keeps_controller
    cp table (st : State Dev) old port v d c e :
  params cp = Ok table -> reachable table st ->
  value_of "com_port" st = Some port ->
  value_of "source" st = Some v ->
  SR542 "serial" port "115200" = Ok d ->
  ini_stage_init (settings st) old (Some d) = Ok (Some c) ->
  drv_call (SetSource v) c = Raise e ->
  exists st',
    ini_stage old st = (Raise e, st') /\
    controller st' = Some c /\
    settings st' = settings st /\
    trace st' =
    (trace st ++ [EvConnect "serial" port "115200"; EvIsConnected;
                  EvCall (SetSource v)])%list.
Proof.
  intros Hp Hr Hport Hsrc Hd Hi He.
  destruct (reachable_settings_head cp table st Hp Hr)
    as (pc & ps & rest & Hs & Hnc & Hns & _).
  assert (Hv : p_value ps = v).
  { unfold value_of in Hsrc. rewrite Hs in Hsrc. simpl in Hsrc.
    rewrite Hnc, Hns in Hsrc. simpl in Hsrc. now injection Hsrc. }
  assert (Hpc : p_value pc = port).
  { unfold value_of in Hport. rewrite Hs in Hport. simpl in Hport.
    rewrite Hnc in Hport. simpl in Hport. now injection Hport. }
  unfold ini_stage, bind, setting. rewrite Hs. simpl. rewrite Hnc. simpl.
  rewrite Hpc, Hd. simpl. rewrite <- Hs, Hi. simpl.
  rewrite Hs. simpl. unfold bind.
  unfold commit_settings at 1. rewrite Hnc. simpl.
  unfold commit_settings at 1. rewrite Hns. simpl.
  unfold bind, device_call. simpl. rewrite Hv, He.
  eexists. split; [reflexivity|]. simpl. repeat split.
  - now rewrite Hs.
  - now rewrite <- !app_assoc.
Qed.

End IniStage.

(** ** The further properties on concrete instances *)

Lemma settings_names_invariant_witness :
  names (settings (connected_instance plain_host)) =
  ["com_port"; "source"; "edge"; "internal_freq"; "n"; "m"; "control"; "run";
   "units"; "epsilon"; "timeout"; "multiaxes"; "bounds"; "scaling"].
Proof.
  exact (settings_names_invariant (H := open_driver) (H0 := plain_host)
           ["COM3"; "COM9"] sample_table (connected_instance plain_host)
           (sample_params plain_host) (connected_reachable plain_host)).
Defined.

Lemma commit_and_ini_stage_touch_two_children_witness :
  child "run"
    (settings (snd (commit_settings (H := open_driver)
                      (source_param (VStr "external"))
                      (connected_instance plain_host))))
  = child "run" (settings (connected_instance plain_host)) /\
  child "run"
    (settings (snd (ini_stage (H := open_driver) (H0 := plain_host) None
                      (connected_instance plain_host))))
  = child "run" (settings (connected_instance plain_host)).
Proof.
  apply (commit_and_ini_stage_touch_two_children
           (H := open_driver) (H0 := plain_host)
           (connected_instance plain_host) (source_param (VStr "external"))
           None "run"); discriminate.
Defined.

Lemma stop_motion_touches_run_only_witness :
  child "source"
    (settings (snd (stop_motion (H := open_driver)
                      (run_pushed_instance plain_host))))
  = child "source" (settings (run_pushed_instance plain_host)) /\
  visibilities
    (settings (snd (stop_motion (H := open_driver)
                      (run_pushed_instance plain_host))))
  = visibilities (settings (run_pushed_instance plain_host)).
Proof.
  apply (stop_motion_touches_run_only (H := open_driver)
           (run_pushed_instance plain_host) "source"); discriminate.
Defined.

Lemma methods_without_controller_witness :
  get_actuator_value (H := open_driver) (H0 := plain_host)
    (fresh_instance plain_host)
  = (Raise (AttributeError "config"), fresh_instance plain_host) /\
  stop_motion (H := open_driver) (fresh_instance plain_host)
  = (Raise (AttributeError "operate"), fresh_instance plain_host) /\
  move_abs (H := open_driver) (H0 := plain_host) 5%float
    (fresh_instance plain_host)
  = (Raise (AttributeError "config"),
     with_target_value 5%float (fresh_instance plain_host)) /\
  commit_settings (H := open_driver) (source_param (VStr "external"))
    (fresh_instance plain_host)
  = (Raise (AttributeError "config"), fresh_instance plain_host).
Proof.
  destruct (methods_without_controller (H := open_driver) (H0 := plain_host)
              (fresh_instance plain_host) 5%float
              (source_param (VStr "external")) eq_refl)
    as (Hg & Hs & Ha & _ & Hc).
  split; [exact Hg|]. split; [exact Hs|]. split; [exact Ha|].
  apply Hc. simpl. auto.
Defined.

Lemma commit_settings_other_names_witness :
  commit_settings (H := open_driver) n_param (connected_instance plain_host)
  = (Ok tt, connected_instance plain_host) /\
  commit_settings (H := open_driver) n_param (fresh_instance plain_host)
  = (Ok tt, fresh_instance plain_host).
Proof.
  assert (Hn : ~ In (p_name n_param) dispatched_names).
  { simpl. intros [E|[E|[E|[E|[E|[]]]]]]; discriminate. }
  split; apply (commit_settings_other_names (H := open_driver)); exact Hn.
Defined.

Lemma stop_motion_failure_keeps_run_witness :
  let st :=
    with_settings
      (update_child "run" (set_value (VBool true))
         (settings (unconnected_instance plain_host)))
      (unconnected_instance plain_host) in
  fst (stop_motion (H := strict_driver) st)
  = Raise (External "not connected") /\
  value_of "run" (snd (stop_motion (H := strict_driver) st))
  = Some (VBool true).
Proof.
  cbv zeta.
  destruct (stop_motion_failure_keeps_run (H := strict_driver)
              (with_settings
                 (update_child "run" (set_value (VBool true))
                    (settings (unconnected_instance plain_host)))
                 (unconnected_instance plain_host))
              (sim_fresh (VStr "COM3") false) (External "not connected")
              eq_refl eq_refl)
    as (Hrun & Hv).
  split; [now rewrite Hrun|exact Hv].
Defined.

Lemma commit_source_failure_keeps_visibility_witness :
  fst (commit_settings (H := strict_driver) (source_param (VStr "external"))
         (unconnected_instance plain_host))
  = Raise (External "not connected") /\
  visible "edge"
    (snd (commit_settings (H := strict_driver)
            (source_param (VStr "external"))
            (unconnected_instance plain_host)))
  = visible "edge" (unconnected_instance plain_host).
Proof.
  destruct (commit_source_failure_keeps_visibility (H := strict_driver)
              (unconnected_instance plain_host)
              (source_param (VStr "external"))
              (sim_fresh (VStr "COM3") false) (External "not connected")
              eq_refl eq_refl eq_refl)
    as (Hrun & He & _).
  split; [now rewrite Hrun|exact He].
Defined.

Lemma move_abs_failure_witness :
  exists st',
    move_abs (H := strict_driver) (H0 := plain_host) 5%float
      (unconnected_instance plain_host)
    = (Raise (External "not connected"), st') /\
    target_value st' = 5%float.
Proof.
  destruct (move_abs_failure (H := strict_driver) (H0 := plain_host)
              (unconnected_instance plain_host) 5%float
              (sim_fresh (VStr "COM3") false) (External "not connected")
              eq_refl eq_refl)
    as (st' & Hrun & _ & Ht & _).
  exists st'. split; assumption.
Defined.

Lemma close_keeps_controller_witness :
  exists d2,
    bind (close (H := open_driver)) (fun _ => close (H := open_driver))
      (connected_instance plain_host)
    = (Ok tt,
       mkState (Some d2) (settings (connected_instance plain_host))
         0%float 0%float
         (trace (connected_instance plain_host)
            ++ [EvCall Disconnect; EvCall Disconnect])) /\
    sim_connected d2 = false.
Proof.
  exists (sim_apply Disconnect (connected_device plain_host)).
  split; [|reflexivity].
  apply (proj1 (proj2 (close_keeps_controller (H := open_driver)
                         (connected_instance plain_host)
                         (connected_device plain_host)
                         (sim_apply Disconnect (connected_device plain_host))
                         eq_refl eq_refl))).
  reflexivity.
Defined.

Lemma ini_stage_establishes_visibility_witness :
  exists st',
    ini_stage (H := open_driver) (H0 := plain_host) None
      (fresh_instance plain_host)
    = (Ok ("Chopper initialized", true), st') /\
    visible "edge" st' = false /\
    visible "internal_freq" st' = true.
Proof.
  assert (Hcommon :
            ~ In "source"
                (names (comon_parameters_fun (Host := plain_host)
                          is_multiaxes _axis_names _epsilon))).
  { simpl. intros [E|[E|[E|[E|[E|[E|[]]]]]]]; discriminate. }
  destruct (ini_stage_establishes_visibility
              (H := open_driver) (H0 := plain_host)
              ["COM3"; "COM9"] sample_table (fresh_instance plain_host)
              None (VStr "COM3") (VStr "internal")
              (sim_fresh (VStr "COM3") true) (sim_fresh (VStr "COM3") true)
              (sample_params plain_host) (reach_init _) Hcommon
              eq_refl eq_refl eq_refl eq_refl open_driver_calls_return)
    as (st' & Hrun & He & Hf).
  exists st'. split; [exact Hrun|]. split.
  - apply not_true_is_false. intros Hv. apply He in Hv. discriminate.
  - now apply Hf.
Defined.

Lemma ini_stage_failure_keeps_controller_witness :
  exists st',
    ini_stage (H := strict_driver) (H0 := plain_host) None
      (fresh_instance plain_host)
    = (Raise (External "not connected"), st') /\
    controller st' = Some (sim_fresh (VStr "COM3") false) /\
    settings st' = settings (fresh_instance plain_host).
Proof.
  destruct (ini_stage_failure_keeps_controller
              (H := strict_driver) (H0 := plain_host)
              ["COM3"; "COM9"] sample_table (fresh_instance plain_host)
              None (VStr "COM3") (VStr "internal")
              (sim_fresh (VStr "COM3") false) (sim_fresh (VStr "COM3") false)
              (External "not connected")
              (sample_params plain_host) (reach_init _)
              eq_refl eq_refl eq_refl eq_refl eq_refl)
    as (st' & Hrun & Hc & Hs & _).
  exists st'. repeat split; assumption.
Defined.

(** ** Applying the same source again *)

Lemma update_child_comm n m f g ps :
  (forall p, p_name (f p) = p_name p) ->
  (forall p, p_name (g p) = p_name p) ->
  n <> m ->
  update_child n f (update_child m g ps)
  = update_child m g (update_child n f ps).
Proof.
  intros Hf Hg Hnm. induction ps as [|p ps IH]; simpl; [reflexivity|].
  destruct (String.eqb (p_name p) m) eqn:Em;
    destruct (String.eqb (p_name p) n) eqn:En; simpl.
  - apply String.eqb_eq in Em, En. congruence.
  - now rewrite Hg, En, Em.
  - now rewrite Hf, Em, En.
  - now rewrite Em, En, IH.
Qed.

Lemma update_child_idem n f ps :
  (forall p, p_name (f p) = p_name p) ->
  (forall p, f (f p) = f p) ->
  update_child n f (update_child n f ps) = update_child n f ps.
Proof.
  intros Hf Hi. induction ps as [|p ps IH]; simpl; [reflexivity|].
  destruct (String.eqb (p_name p) n) eqn:En; simpl.
  - now rewrite Hf, En, Hi.
  - now rewrite En, IH.
Qed.

(** X16.  Applying [commit_settings] to the same [source] value a second
    time writes [config.source] again but leaves the settings tree exactly
    as the first application left it. *)
Theorem commit_source_again {Dev : Type} `{Driver Dev} `{Host}
    cp table (st : State Dev) p d :
  params cp = Ok table -> reachable table st ->
  p_name p = "source" ->
  controller st = Some d -> calls_return ->
  exists st1 st2,
    commit_settings p st = (Ok tt, st1) /\
    commit_settings p st1 = (Ok tt, st2) /\
    settings st2 = settings st1 /\
    trace st2 = (trace st ++ commit_events p ++ commit_events p)%list.
Proof.
  intros Hp Hr Hn Hc Hret.
  destruct (reachable_child cp table st "edge" Hp Hr) as [pe He];
    [simpl; auto|].
  destruct (reachable_child cp table st "internal_freq" Hp Hr) as [pf Hf];
    [simpl; auto|].
  destruct (Hret (SetSource (p_value p)) d) as [d1 H1].
  destruct (Hret (SetSource (p_value p)) d1) as [d2 H2].
  set (b1 := value_eq_str (p_value p) "external").
  set (b2 := value_eq_str (p_value p) "internal").
  pose proof (commit_source_run st p d d1 pe pf Hn Hc H1 He Hf) as R1.
  assert (He1 : child "edge" (settings (after_source (p_value p) d1 st))
                = Some (set_visible b1 pe)).
  { unfold after_source. simpl.
    rewrite child_update_other; [| apply set_visible_name | discriminate].
    exact (child_update_same _ _ _ pe (set_visible_name _) He). }
  assert (Hf1 : child "internal_freq"
                  (settings (after_source (p_value p) d1 st))
                = Some (set_visible b2 pf)).
  { unfold after_source. simpl.
    apply (child_update_same _ _ _ pf (set_visible_name _)).
    rewrite child_update_other; [exact Hf | apply set_visible_name |].
    discriminate. }
  pose proof (commit_source_run (after_source (p_value p) d1 st) p d1 d2
                _ _ Hn eq_refl H2 He1 Hf1) as R2.
  exists (after_source (p_value p) d1 st).
  exists (after_source (p_value p) d2 (after_source (p_value p) d1 st)).
  split; [exact R1|]. split; [exact R2|]. split.
  - unfold after_source. simpl. fold b1 b2.
    rewrite (update_child_comm "edge" "internal_freq");
      [| apply set_visible_name | apply set_visible_name | discriminate].
    rewrite (update_child_idem "edge");
      [| apply set_visible_name | reflexivity].
    rewrite (update_child_idem "internal_freq");
      [reflexivity | apply set_visible_name | reflexivity].
  - unfold after_source, commit_events. simpl. rewrite Hn. simpl.
    now rewrite <- app_assoc.
Qed.

Lemma commit_source_again_witness :
  exists st1 st2,
    commit_settings (H := open_driver) (source_param (VStr "external"))
      (connected_instance plain_host) = (Ok tt, st1) /\
    commit_settings (H := open_driver) (source_param (VStr "external")) st1
    = (Ok tt, st2) /\
    settings st2 = settings st1.
Proof.
  destruct (commit_source_again (H := open_driver) (H0 := plain_host)
              ["COM3"; "COM9"] sample_table (connected_instance plain_host)
              (source_param (VStr "external")) (connected_device plain_host)
              (sample_params plain_host) (connected_reachable plain_host)
              eq_refl eq_refl open_driver_calls_return)
    as (st1 & st2 & R1 & R2 & Hs & _).
  exists st1, st2. repeat split; assumption.
Defined.

(** ** Moves with the cache refreshed *)

Section HostMoveContract.

Context {Dev : Type} `{Driver Dev} `{Host}.



End HostMoveContract.



(** ** The round trip through the scaling transform *)


